(** * Contacts directory screen (src/App.tsx)

    A shallow embedding of the [App] component: the values that
    [response.json()] can produce, the four [useState] cells, the two
    callbacks [fetchContacts] and [loadMoreContacts] (with the closure of
    the [setTimeout] callback), and the events the rendered tree lets
    through.

    [Alert.alert] touches none of the four state cells: it is modelled by
    the text it is handed.  Not modelled: [console.error], styles and
    layout. *)

From Stdlib Require Import List String Ascii Bool Arith Lia ZArith.
From Stdlib Require Import DecimalString.
From Stdlib Require DecimalNat DecimalFacts Finite.
Import ListNotations.
Local Open Scope string_scope.
Set Warnings "-register-all".

(** ** JavaScript values *)

(** The numbers of the host language.  The component only ever prints a
    number of the response, so the carrier and its [Number.prototype.toString]
    are left to the instance. *)
Class JsNumber := {
  number : Type;
  Number_toString : number -> string
}.

(** Integers printed in decimal, the ids the endpoint really sends: an
    instance to compute with. *)
Definition Z_toString (z : Z) : string :=
  NilZero.string_of_int (Z.to_int z).

Definition IntegerNumber : JsNumber :=
  {| number := Z; Number_toString := Z_toString |}.

(** [(n).toString()] for an array length or an index: a non-negative
    integer far below 2^53, printed in decimal. *)
Definition nat_toString (n : nat) : string :=
  NilZero.string_of_uint (Nat.to_uint n).

(** What is thrown inside the [try] block of [fetchContacts]. *)
Inductive Thrown : Type :=
| FetchRejected                 (* [fetch] rejects: no response at all *)
| HttpError (status : nat)      (* [throw new Error(`HTTP error! Status: ...`)] *)
| JsonRejected                  (* [response.json()] rejects *)
| TypeError.                    (* property read or call on a value that has none *)

(** [try] blocks: [inl e] is a throw, [inr a] a normal completion. *)
Definition Try (A : Type) : Type := (Thrown + A)%type.

Definition ret {A} (a : A) : Try A := inr a.
Definition throw {A} (e : Thrown) : Try A := inl e.
Definition bind {A B} (c : Try A) (k : A -> Try B) : Try B :=
  match c with
  | inl e => inl e
  | inr a => k a
  end.

Notation "x <- c ;; k" := (bind c (fun x => k))
  (at level 61, c at next level, right associativity).

Section App.
Context `{JsNumber}.

(** A value as [JSON.parse] builds it, plus [undefined] for the properties
    that are not there.  An object is the list of its own properties; a
    property is read at its first binding. *)
Inductive JsValue : Type :=
| JUndefined
| JNull
| JBool (b : bool)
| JNum (n : number)
| JStr (s : string)
| JArr (items : list JsValue)
| JObj (props : list (string * JsValue)).

Fixpoint ownProperty (k : string) (props : list (string * JsValue))
  : option JsValue :=
  match props with
  | [] => None
  | (k', v) :: rest => if String.eqb k k' then Some v else ownProperty k rest
  end.

(** [v.k] for the keys the component reads ([id], [name], [phone]): none of
    them is on a built-in prototype, so only an object's own property can
    answer; reading a property of [null] or [undefined] throws. *)
Definition getProp (v : JsValue) (k : string) : Try JsValue :=
  match v with
  | JUndefined | JNull => throw TypeError
  | JObj props =>
      match ownProperty k props with
      | Some x => ret x
      | None => ret JUndefined
      end
  | JBool _ | JNum _ | JStr _ | JArr _ => ret JUndefined
  end.

(** [Array.prototype.join] with separator [","] over pieces that are
    already strings. *)
Fixpoint joinComma (pieces : list string) : string :=
  match pieces with
  | [] => ""
  | [p] => p
  | p :: rest => p ++ "," ++ joinComma rest
  end.

Fixpoint sequence {A} (cs : list (Try A)) : Try (list A) :=
  match cs with
  | [] => ret []
  | c :: rest => a <- c ;; l <- sequence rest ;; ret (a :: l)
  end.

(** [v.toString()].
    - [undefined] and [null] have no properties: the call throws;
    - an array joins its elements with commas, [null] and [undefined]
      elements printing as the empty string;
    - a parsed object answers ["[object Object]"] unless it has an own
      property [toString], which is data and cannot be called. *)
Fixpoint toString (v : JsValue) : Try string :=
  match v with
  | JUndefined | JNull => throw TypeError
  | JBool b => ret (if b then "true" else "false")
  | JNum n => ret (Number_toString n)
  | JStr s => ret s
  | JArr items =>
      pieces <- sequence (map (fun x =>
                  match x with
                  | JUndefined | JNull => ret ""
                  | _ => toString x
                  end) items) ;;
      ret (joinComma pieces)
  | JObj props =>
      match ownProperty "toString" props with
      | Some _ => throw TypeError
      | None => ret "[object Object]"
      end
  end.

(** ** Contact records *)

(** [interface User].  The interface announces strings, but [name] and
    [phone] are copied from the response unchecked, so they hold whatever
    value was there; [id] is always the result of a [toString]. *)
Record User : Type := mkUser {
  id : string;
  name : JsValue;
  phone : JsValue
}.

(** The callback of [data.map] (lines 35-39). *)
Definition toContact (user : JsValue) : Try User :=
  uid <- getProp user "id" ;;
  sid <- toString uid ;;
  uname <- getProp user "name" ;;
  uphone <- getProp user "phone" ;;
  ret {| id := sid; name := uname; phone := uphone |}.

(** [data.map(...)]: only an array has a callable [map]; a throw of the
    callback abandons the whole map. *)
Definition dataMap (data : JsValue) : Try (list User) :=
  match data with
  | JArr items => sequence (map toContact items)
  | _ => throw TypeError
  end.

(** The literal of lines 48-59. *)
Definition mockContacts : list User :=
  [ {| id := "1"; name := JStr "John Smith"; phone := JStr "(123) 456-7890" |};
    {| id := "2"; name := JStr "Sarah Johnson"; phone := JStr "(234) 567-8901" |};
    {| id := "3"; name := JStr "Michael Brown"; phone := JStr "(345) 678-9012" |};
    {| id := "4"; name := JStr "Emily Davis"; phone := JStr "(456) 789-0123" |};
    {| id := "5"; name := JStr "David Wilson"; phone := JStr "(567) 890-1234" |};
    {| id := "6"; name := JStr "Lisa Taylor"; phone := JStr "(678) 901-2345" |};
    {| id := "7"; name := JStr "Robert Anderson"; phone := JStr "(789) 012-3456" |};
    {| id := "8"; name := JStr "Jennifer Thomas"; phone := JStr "(890) 123-4567" |};
    {| id := "9"; name := JStr "Daniel Jackson"; phone := JStr "(901) 234-5678" |};
    {| id := "10"; name := JStr "Karen White"; phone := JStr "(012) 345-6789" |} ].

(** ** The network *)

(** How the awaited [fetch] ends: it rejects, or it answers with a status
    and a body; [json] is what [response.json()] resolves to, [None] when it
    rejects (the body is not JSON). *)
Inductive FetchResult : Type :=
| Rejected
| Response (status : nat) (json : option JsValue).

(** [response.ok]: the status is in the range 200-299. *)
Definition ok (status : nat) : bool :=
  (200 <=? status)%nat && (status <=? 299)%nat.

(** The [try] block of [fetchContacts] from the first [await] to the value
    handed to [setContacts] (lines 27-39). *)
Definition fetchTry (r : FetchResult) : Try (list User) :=
  match r with
  | Rejected => throw FetchRejected
  | Response status json =>
      if negb (ok status) then throw (HttpError status)
      else
        data <- match json with
                | Some d => ret d
                | None => throw JsonRejected
                end ;;
        dataMap data
  end.

(** ** The component state *)

(** The four [useState] cells, and what the event loop still owes the
    component: the [fetchContacts] calls suspended at an [await], and the
    [setTimeout] callbacks not yet run, oldest first.  A callback is the
    closure of one render: it holds the [contacts] array of that render. *)
Record State : Type := mkState {
  contacts : list User;
  loading : bool;
  loadingMore : bool;
  hasMoreData : bool;
  pendingFetches : nat;
  pendingTimeouts : list (list User)
}.

Definition setContacts (f : list User -> list User) (s : State) : State :=
  {| contacts := f (contacts s); loading := loading s;
     loadingMore := loadingMore s; hasMoreData := hasMoreData s;
     pendingFetches := pendingFetches s;
     pendingTimeouts := pendingTimeouts s |}.

Definition setLoading (b : bool) (s : State) : State :=
  {| contacts := contacts s; loading := b;
     loadingMore := loadingMore s; hasMoreData := hasMoreData s;
     pendingFetches := pendingFetches s;
     pendingTimeouts := pendingTimeouts s |}.

Definition setLoadingMore (b : bool) (s : State) : State :=
  {| contacts := contacts s; loading := loading s;
     loadingMore := b; hasMoreData := hasMoreData s;
     pendingFetches := pendingFetches s;
     pendingTimeouts := pendingTimeouts s |}.

Definition setHasMoreData (b : bool) (s : State) : State :=
  {| contacts := contacts s; loading := loading s;
     loadingMore := loadingMore s; hasMoreData := b;
     pendingFetches := pendingFetches s;
     pendingTimeouts := pendingTimeouts s |}.

Definition setPendingFetches (n : nat) (s : State) : State :=
  {| contacts := contacts s; loading := loading s;
     loadingMore := loadingMore s; hasMoreData := hasMoreData s;
     pendingFetches := n;
     pendingTimeouts := pendingTimeouts s |}.

Definition setPendingTimeouts (q : list (list User)) (s : State) : State :=
  {| contacts := contacts s; loading := loading s;
     loadingMore := loadingMore s; hasMoreData := hasMoreData s;
     pendingFetches := pendingFetches s;
     pendingTimeouts := q |}.

(** The [useState] initial values (lines 18-21). *)
Definition initialState : State :=
  {| contacts := []; loading := true; loadingMore := false;
     hasMoreData := true; pendingFetches := 0; pendingTimeouts := [] |}.

(** ** fetchContacts *)

(** [fetchContacts()] up to its first [await]: [setLoading(true)], and the
    request is out. *)
Definition fetchContacts (s : State) : State :=
  setPendingFetches (S (pendingFetches s)) (setLoading true s).

(** The rest of [fetchContacts] once the request has ended with [r]: the
    [try] block, else the [catch] block, then [finally]. *)
Definition fetchContacts_resume (r : FetchResult) (s : State) : State :=
  let s' :=
    match fetchTry r with
    | inr newContacts =>
        setHasMoreData false (setContacts (fun _ => newContacts) s)
    | inl _ =>
        setHasMoreData false (setContacts (fun _ => mockContacts) s)
    end in
  setLoading false s'.

(** ** loadMoreContacts *)

(** [Array.from({ length: 5 }, (_, i) => ...)] (lines 77-81). *)
Definition additionalContacts (currentCount : nat) : list User :=
  map (fun i =>
         {| id := nat_toString (currentCount + i + 1);
            name := JStr ("Additional User " ++ nat_toString (currentCount + i + 1));
            phone := JStr ("(999) " ++ nat_toString i ++ nat_toString i ++ nat_toString i
                             ++ "-" ++ nat_toString i ++ nat_toString i
                             ++ nat_toString i ++ nat_toString i) |})
      (seq 0 5).

(** The callback given to [setTimeout] (lines 75-89).  [closureContacts] is
    the [contacts] of the render that created the callback; the functional
    update of [setContacts] reads the cell as it is when the callback
    runs. *)
Definition loadMoreTimeout (closureContacts : list User) (s : State) : State :=
  let currentCount := List.length closureContacts in
  let additional := additionalContacts currentCount in
  let s1 := setContacts (fun prevContacts => (prevContacts ++ additional)%list) s in
  let s2 := setLoadingMore false s1 in
  if (30 <=? List.length closureContacts + List.length additional)%nat
  then setHasMoreData false s2
  else s2.

(** [loadMoreContacts()] called from the render that shows state [s]
    (lines 68-90): the guard, [setLoadingMore(true)], and the timer. *)
Definition loadMoreContacts (s : State) : State :=
  if negb (hasMoreData s) || loadingMore s then s
  else
    setPendingTimeouts (pendingTimeouts s ++ [contacts s])%list
      (setLoadingMore true s).

(** ** What the rendered tree lets through *)

(** While [loading] the component returns the spinner alone (lines
    108-114); otherwise the [FlatList] is mounted, with [onRefresh] wired to
    [fetchContacts], [onEndReached] wired to [loadMoreContacts] when
    [hasMoreData] and to [null] otherwise, and the Retry button inside the
    empty-list view. *)
Inductive Event : Type :=
| PullToRefresh
| PressRetry
| EndReached
| FetchSettled (r : FetchResult)
| TimeoutElapsed.

Definition step (s : State) (e : Event) : option State :=
  match e with
  | PullToRefresh =>
      if loading s then None else Some (fetchContacts s)
  | PressRetry =>
      if loading s then None
      else match contacts s with
           | [] => Some (fetchContacts s)
           | _ :: _ => None
           end
  | EndReached =>
      if loading s then None
      else if hasMoreData s then Some (loadMoreContacts s)
      else None
  | FetchSettled r =>
      match pendingFetches s with
      | 0 => None
      | S n => Some (fetchContacts_resume r (setPendingFetches n s))
      end
  | TimeoutElapsed =>
      match pendingTimeouts s with
      | [] => None
      | closureContacts :: rest =>
          Some (loadMoreTimeout closureContacts (setPendingTimeouts rest s))
      end
  end.

Fixpoint run (s : State) (es : list Event) : option State :=
  match es with
  | [] => Some s
  | e :: rest =>
      match step s e with
      | Some s' => run s' rest
      | None => None
      end
  end.

(** The mount: first render, then the effect of lines 92-94. *)
Definition mounted : State := fetchContacts initialState.

Definition reachable (s : State) : Prop :=
  exists es, run mounted es = Some s.

(** What a settled request hands to [setContacts]: the mapped response, or
    the mock records when the [try] block threw. *)
Definition fetchedContacts (r : FetchResult) : list User :=
  match fetchTry r with
  | inr newContacts => newContacts
  | inl _ => mockContacts
  end.

(** The request that settled last in a history of events, if any. *)
Fixpoint lastSettled (acc : option FetchResult) (es : list Event)
  : option FetchResult :=
  match es with
  | [] => acc
  | FetchSettled r :: rest => lastSettled (Some r) rest
  | _ :: rest => lastSettled acc rest
  end.

Definition distinctIds (l : list User) : Prop := NoDup (map id l).

(** The collection after the request [o] settled last, [cur] if none did. *)
Definition collectionAfter (o : option FetchResult) (cur : list User)
  : list User :=
  match o with
  | Some r => fetchedContacts r
  | None => cur
  end.

(** What every state the mounted component can be in satisfies: no
    pagination is in progress or owed, the list is only shown with
    [hasMoreData] false, and a request is out exactly while [loading]. *)
Definition quiescent (s : State) : Prop :=
  loadingMore s = false /\
  pendingTimeouts s = [] /\
  (loading s = false -> hasMoreData s = false) /\
  pendingFetches s = (if loading s then 1 else 0).

(** ** What the user is told *)

(** The [message] of what was thrown.  The text of line 30 is the
    component's own; the other errors are raised by the runtime, which words
    them as it likes: [engine] gives those texts. *)
Definition errorMessage (engine : Thrown -> string) (e : Thrown) : string :=
  match e with
  | HttpError status => "HTTP error! Status: " ++ nat_toString status
  | _ => engine e
  end.

(** The [Alert.alert] of the [catch] block (line 46), if the request that
    ended with [r] gets there.  Whatever the [try] block throws is an
    [Error], so the text shown is its message. *)
Definition fetchContacts_alert (engine : Thrown -> string) (r : FetchResult)
  : option string :=
  match fetchTry r with
  | inl e => Some ("Failed to load contacts: " ++ errorMessage engine e)
  | inr _ => None
  end.

(** A value inside a template literal: [undefined] and [null] print their
    names, anything else prints as [toString] does. *)
Definition templateString (v : JsValue) : Try string :=
  match v with
  | JUndefined => ret "undefined"
  | JNull => ret "null"
  | _ => toString v
  end.

(** [handlePress] (lines 96-98): the text handed to [Alert.alert]. *)
Definition handlePress (pressed : JsValue) : Try string :=
  text <- templateString pressed ;;
  ret ("You clicked on " ++ text).

(** ** The rendered tree *)

(** The two callbacks the tree is wired to. *)
Inductive Handler : Type :=
| HFetchContacts
| HLoadMoreContacts.

Definition invoke (h : Handler) (s : State) : State :=
  match h with
  | HFetchContacts => fetchContacts s
  | HLoadMoreContacts => loadMoreContacts s
  end.

(** The props of one [ContactItem] (lines 10-15); [itemOnPress] is what a
    press alerts. *)
Record ContactItemProps : Type := mkItem {
  itemName : JsValue;
  itemPhone : JsValue;
  itemOnPress : Try string
}.

(** [renderItem] (lines 100-106) and [keyExtractor] (line 122). *)
Definition renderItem (item : User) : ContactItemProps :=
  {| itemName := name item;
     itemPhone := phone item;
     itemOnPress := handlePress (name item) |}.

Definition keyExtractor (item : User) : string := id item.

(** [ListFooterComponent] (lines 126-132). *)
Inductive Footer : Type :=
| LoadMoreIndicator
| EndMessage
| NoFooter.

(** The props handed to [FlatList] (lines 120-145) that depend on the
    state.  [ListEmptyComponent] is the Retry view, given by the handler of
    its button, or [None] for [null]. *)
Record FlatListProps : Type := mkFlatList {
  data : list User;
  onEndReached : option Handler;
  ListFooterComponent : Footer;
  ListEmptyComponent : option Handler;
  refreshingProp : bool;                (* the prop [refreshing] *)
  onRefresh : Handler
}.

Inductive View : Type :=
| LoadingContainer                      (* lines 108-114 *)
| Container (flatList : FlatListProps). (* lines 116-147 *)

(** What [App] returns for the state [s]. *)
Definition render (s : State) : View :=
  if loading s then LoadingContainer
  else
    Container
      {| data := contacts s;
         onEndReached := if hasMoreData s then Some HLoadMoreContacts else None;
         ListFooterComponent :=
           if loadingMore s then LoadMoreIndicator
           else if negb (hasMoreData s) && (0 <? List.length (contacts s))%nat
                then EndMessage
                else NoFooter;
         ListEmptyComponent :=
           if negb (loading s) then Some HFetchContacts else None;
         refreshingProp := loading s;
         onRefresh := HFetchContacts |}.

(** The rows of the list: a key and a [ContactItem] per record. *)
Definition rows (p : FlatListProps) : list (string * ContactItemProps) :=
  map (fun item => (keyExtractor item, renderItem item)) (data p).

(** [FlatList] shows [ListEmptyComponent] in place of the rows when [data]
    is empty. *)
Definition emptyShown (p : FlatListProps) : option Handler :=
  match data p with
  | [] => ListEmptyComponent p
  | _ :: _ => None
  end.

(** The handler a view offers for a gesture: pulling the list down,
    pressing Retry, scrolling near the end.  The other events are not
    gestures. *)
Definition offered (v : View) (e : Event) : option Handler :=
  match v, e with
  | Container p, PullToRefresh => Some (onRefresh p)
  | Container p, PressRetry => emptyShown p
  | Container p, EndReached => onEndReached p
  | _, _ => None
  end.

Definition gesture (e : Event) : bool :=
  match e with
  | PullToRefresh | PressRetry | EndReached => true
  | FetchSettled _ | TimeoutElapsed => false
  end.


(** At most one pagination is in progress: [loadingMore] is set exactly
    while one timer is owed. *)
Definition singlePagination (s : State) : Prop :=
  (loadingMore s = false /\ pendingTimeouts s = []) \/
  (loadingMore s = true /\ exists c, pendingTimeouts s = [c]).

(** [k] pages asked for one after the other: the end of the list is
    signalled, then the timer elapses. *)
Fixpoint pageEvents (k : nat) : list Event :=
  match k with
  | 0 => []
  | S k' => EndReached :: TimeoutElapsed :: pageEvents k'
  end.

End App.

(** ** Sample inputs *)

Section Samples.
#[local] Existing Instance IntegerNumber.

(** A 404 answer. *)
Definition notFound : FetchResult := Response 404 None.

(** The first two users of the endpoint. *)
Definition twoUsers : list JsValue :=
  [ JObj [("id", JNum 1%Z); ("name", JStr "Leanne Graham");
          ("username", JStr "Bret"); ("phone", JStr "1-770-736-8031 x56442")];
    JObj [("id", JNum 2%Z); ("name", JStr "Ervin Howell");
          ("username", JStr "Antonette"); ("phone", JStr "010-692-6593 x09125")] ].

(** An answer in which two elements carry the same id. *)
Definition sameIdTwice : FetchResult :=
  Response 200
    (Some (JArr [ JObj [("id", JNum 7%Z); ("name", JStr "Ann"); ("phone", JStr "555-0100")];
                  JObj [("id", JNum 7%Z); ("name", JStr "Bob"); ("phone", JStr "555-0101")] ])).

(** The list on screen with [c] as its collection and more data announced:
    the state the pagination code is written for. *)
Definition paginating (c : list User) : State :=
  {| contacts := c; loading := false; loadingMore := false;
     hasMoreData := true; pendingFetches := 0; pendingTimeouts := [] |}.


(** What [twoUsers] is mapped to. *)
Definition twoContacts : list User :=
  [ {| id := "1"; name := JStr "Leanne Graham"; phone := JStr "1-770-736-8031 x56442" |};
    {| id := "2"; name := JStr "Ervin Howell"; phone := JStr "010-692-6593 x09125" |} ].

(** The mounted component after its first request was answered by a 404. *)
Definition settled : State :=
  fetchContacts_resume notFound (setPendingFetches 0 mounted).

(** The same, and the user has pulled to refresh. *)
Definition refreshing : State := fetchContacts settled.

(** The mounted component after its first request was answered by
    [sameIdTwice]. *)
Definition sameIdState : State :=
  fetchContacts_resume sameIdTwice (setPendingFetches 0 mounted).

(** The messages of one runtime. *)
Definition hermes (e : Thrown) : string :=
  match e with
  | FetchRejected => "Network request failed"
  | JsonRejected => "JSON Parse error: Unexpected token: <"
  | _ => "undefined is not an object"
  end.

(** An element without an id. *)
Definition noId : JsValue := JObj [("name", JStr "No Id")].

(** A body that wraps the array in an object. *)
Definition wrappedBody : JsValue := JObj [("users", JArr twoUsers)].

(** The list rendered for [settled]. *)
Definition settledList : FlatListProps :=
  {| data := mockContacts; onEndReached := None;
     ListFooterComponent := EndMessage;
     ListEmptyComponent := Some HFetchContacts;
     refreshingProp := false; onRefresh := HFetchContacts |}.

(** An element with an id and a phone but no name. *)
Definition nameless : JsValue :=
  JObj [("id", JNum 3%Z); ("phone", JStr "1-463-123-4447")].

(** What [nameless] is mapped to. *)
Definition namelessContact : User :=
  {| id := "3"; name := JUndefined; phone := JStr "1-463-123-4447" |}.

End Samples.

(** ** Properties *)

Section Properties.
Context `{JsNumber}.

(** ** The [try] monad and [sequence] *)

Lemma sequence_inr_length {A} (cs : list (Try A)) (l : list A) :
  sequence cs = inr l -> List.length l = List.length cs.
Proof.
  revert l; induction cs as [|c cs IH]; intros l Hseq; simpl in Hseq.
  - injection Hseq as <-. reflexivity.
  - destruct c as [e|a]; simpl in Hseq; [discriminate|].
    destruct (sequence cs) as [e|l']; simpl in Hseq; [discriminate|].
    injection Hseq as <-. simpl. f_equal. now apply IH.
Qed.

Lemma sequence_inr_nth {A} (cs : list (Try A)) (l : list A) i c :
  sequence cs = inr l -> nth_error cs i = Some c ->
  exists a, c = inr a /\ nth_error l i = Some a.
Proof.
  revert l i; induction cs as [|c0 cs IH]; intros l i Hseq Hnth.
  - destruct i; discriminate.
  - simpl in Hseq.
    destruct c0 as [e|a0]; simpl in Hseq; [discriminate|].
    destruct (sequence cs) as [e|l'] eqn:Hrest; simpl in Hseq; [discriminate|].
    injection Hseq as <-.
    destruct i as [|i]; simpl in Hnth.
    + injection Hnth as <-. exists a0. split; reflexivity.
    + destruct (IH l' i eq_refl Hnth) as (a & -> & Hl). exists a. now split.
Qed.

Lemma toContact_inr user rec :
  toContact user = inr rec ->
  exists uid,
    getProp user "id" = inr uid /\ toString uid = inr (id rec) /\
    getProp user "name" = inr (name rec) /\
    getProp user "phone" = inr (phone rec).
Proof.
  unfold toContact, bind, ret.
  destruct (getProp user "id") as [e|uid]; [discriminate|].
  destruct (toString uid) as [e|sid] eqn:Hsid; [discriminate|].
  destruct (getProp user "name") as [e|uname]; [discriminate|].
  destruct (getProp user "phone") as [e|uphone]; [discriminate|].
  intros [= <-]. exists uid. cbn [id name phone].
  repeat split; assumption || reflexivity.
Qed.

(** ** The failure modes of the request *)

Lemma fetchTry_rejected : fetchTry Rejected = throw FetchRejected.
Proof. reflexivity. Qed.

Lemma fetchTry_http_error status json :
  ok status = false -> fetchTry (Response status json) = throw (HttpError status).
Proof. intros Hok. unfold fetchTry. now rewrite Hok. Qed.

Lemma fetchTry_json_rejected status :
  ok status = true -> fetchTry (Response status None) = throw JsonRejected.
Proof. intros Hok. unfold fetchTry. now rewrite Hok. Qed.

Lemma fetchTry_array status items :
  ok status = true ->
  fetchTry (Response status (Some (JArr items))) = sequence (map toContact items).
Proof. intros Hok. unfold fetchTry. now rewrite Hok. Qed.

Lemma fetchTry_inr_ok status json recs :
  fetchTry (Response status json) = inr recs -> ok status = true.
Proof.
  unfold fetchTry. destruct (ok status); [reflexivity|discriminate].
Qed.

Lemma resume_contacts r s :
  contacts (fetchContacts_resume r s) = fetchedContacts r.
Proof.
  unfold fetchContacts_resume, fetchedContacts.
  destruct (fetchTry r); reflexivity.
Qed.

Lemma resume_hasMoreData r s : hasMoreData (fetchContacts_resume r s) = false.
Proof. unfold fetchContacts_resume. destruct (fetchTry r); reflexivity. Qed.

Lemma resume_loading r s : loading (fetchContacts_resume r s) = false.
Proof. unfold fetchContacts_resume. destruct (fetchTry r); reflexivity. Qed.

Lemma resume_loadingMore r s :
  loadingMore (fetchContacts_resume r s) = loadingMore s.
Proof. unfold fetchContacts_resume. destruct (fetchTry r); reflexivity. Qed.

Lemma resume_pending r s :
  pendingFetches (fetchContacts_resume r s) = pendingFetches s /\
  pendingTimeouts (fetchContacts_resume r s) = pendingTimeouts s.
Proof. unfold fetchContacts_resume. destruct (fetchTry r); split; reflexivity. Qed.

(** C1: when the [try] block of [fetchContacts] throws, whatever threw
    (a status outside 200-299, a rejected request, a body that is not JSON,
    a body that cannot be mapped), the collection is exactly the ten mock
    records, ids "1" to "10", John Smith first and Karen White last, and
    [hasMoreData] is false. *)
Theorem fetchContacts_failure_gives_mock r e s :
  fetchTry r = throw e ->
  contacts (fetchContacts_resume r s) = mockContacts /\
  hasMoreData (fetchContacts_resume r s) = false /\
  List.length mockContacts = 10 /\
  map id mockContacts = map nat_toString (seq 1 10) /\
  map name mockContacts =
    map JStr ["John Smith"; "Sarah Johnson"; "Michael Brown"; "Emily Davis";
              "David Wilson"; "Lisa Taylor"; "Robert Anderson";
              "Jennifer Thomas"; "Daniel Jackson"; "Karen White"].
Proof.
  intros Hthrow. split; [|split; [apply resume_hasMoreData|]].
  - rewrite resume_contacts. unfold fetchedContacts. now rewrite Hthrow.
  - repeat split; reflexivity.
Qed.

(** C2: when the request succeeds with a JSON array and the [try] block
    completes, the collection is the mapped array: same length, and at
    every index the record's id is [toString] of the element's [id], its
    name and phone the element's [name] and [phone] as they are. *)
Theorem fetchContacts_success_maps_array status items recs s :
  fetchTry (Response status (Some (JArr items))) = inr recs ->
  contacts (fetchContacts_resume (Response status (Some (JArr items))) s) = recs /\
  List.length recs = List.length items /\
  forall i user, nth_error items i = Some user ->
    exists rec uid,
      nth_error recs i = Some rec /\
      getProp user "id" = inr uid /\ toString uid = inr (id rec) /\
      getProp user "name" = inr (name rec) /\
      getProp user "phone" = inr (phone rec).
Proof.
  intros Hok. pose proof (fetchTry_inr_ok _ _ _ Hok) as Hstatus.
  split; [|split].
  - rewrite resume_contacts. unfold fetchedContacts. now rewrite Hok.
  - rewrite (fetchTry_array _ _ Hstatus) in Hok.
    apply sequence_inr_length in Hok. now rewrite length_map in Hok.
  - intros i user Hnth. rewrite (fetchTry_array _ _ Hstatus) in Hok.
    assert (Hmap : nth_error (map toContact items) i = Some (toContact user))
      by now rewrite nth_error_map, Hnth.
    destruct (sequence_inr_nth _ _ _ _ Hok Hmap) as (rec & Hrec & Hi).
    destruct (toContact_inr _ _ Hrec) as (uid & H1 & H2 & H3 & H4).
    exists rec, uid. repeat split; assumption.
Qed.

(** ** Pagination *)

Lemma additionalContacts_five n :
  additionalContacts n =
  [ {| id := nat_toString (n + 1);
       name := JStr ("Additional User " ++ nat_toString (n + 1));
       phone := JStr "(999) 000-0000" |};
    {| id := nat_toString (n + 2);
       name := JStr ("Additional User " ++ nat_toString (n + 2));
       phone := JStr "(999) 111-1111" |};
    {| id := nat_toString (n + 3);
       name := JStr ("Additional User " ++ nat_toString (n + 3));
       phone := JStr "(999) 222-2222" |};
    {| id := nat_toString (n + 4);
       name := JStr ("Additional User " ++ nat_toString (n + 4));
       phone := JStr "(999) 333-3333" |};
    {| id := nat_toString (n + 5);
       name := JStr ("Additional User " ++ nat_toString (n + 5));
       phone := JStr "(999) 444-4444" |} ].
Proof.
  unfold additionalContacts. cbn [seq map].
  replace (n + 0 + 1) with (n + 1) by lia.
  replace (n + 1 + 1) with (n + 2) by lia.
  replace (n + 2 + 1) with (n + 3) by lia.
  replace (n + 3 + 1) with (n + 4) by lia.
  replace (n + 4 + 1) with (n + 5) by lia.
  reflexivity.
Qed.

Lemma additionalContacts_length n : List.length (additionalContacts n) = 5.
Proof. unfold additionalContacts. now rewrite length_map, length_seq. Qed.

Lemma loadMoreContacts_past_guard s :
  hasMoreData s = true -> loadingMore s = false ->
  loadMoreContacts s =
  setPendingTimeouts (pendingTimeouts s ++ [contacts s]) (setLoadingMore true s).
Proof. intros Hm Hl. unfold loadMoreContacts. now rewrite Hm, Hl. Qed.

Lemma loadMoreTimeout_contacts c s :
  contacts (loadMoreTimeout c s) =
  (contacts s ++ additionalContacts (List.length c))%list.
Proof.
  unfold loadMoreTimeout.
  destruct (30 <=? _)%nat; reflexivity.
Qed.

Lemma loadMoreTimeout_hasMoreData c s :
  hasMoreData (loadMoreTimeout c s) =
  hasMoreData s && (List.length c + 5 <? 30)%nat.
Proof.
  unfold loadMoreTimeout. rewrite additionalContacts_length.
  destruct (Nat.leb_spec 30 (List.length c + 5)) as [Hge|Hlt];
    destruct (Nat.ltb_spec (List.length c + 5) 30) as [Hlt'|Hge']; try lia;
    cbn [hasMoreData setHasMoreData setLoadingMore setContacts].
  - now rewrite andb_false_r.
  - now rewrite andb_true_r.
Qed.

Lemma loadMoreTimeout_loadingMore c s : loadingMore (loadMoreTimeout c s) = false.
Proof. unfold loadMoreTimeout. destruct (30 <=? _)%nat; reflexivity. Qed.

Lemma loadMoreTimeout_loading c s : loading (loadMoreTimeout c s) = loading s.
Proof. unfold loadMoreTimeout. destruct (30 <=? _)%nat; reflexivity. Qed.

(** C3: from a state with [hasMoreData] true and [loadingMore] false,
    [loadMoreContacts] schedules one callback holding the current
    collection, and when that callback runs the collection is the old one
    followed by exactly five records: ids [n+1] to [n+5] printed in decimal
    ([n] the old length), names "Additional User <id>", phones
    "(999) 000-0000" to "(999) 444-4444". *)
Theorem loadMoreContacts_appends_five s :
  hasMoreData s = true -> loadingMore s = false ->
  let n := List.length (contacts s) in
  pendingTimeouts (loadMoreContacts s) = (pendingTimeouts s ++ [contacts s])%list /\
  contacts (loadMoreContacts s) = contacts s /\
  contacts (loadMoreTimeout (contacts s) (loadMoreContacts s)) =
    (contacts s ++
     [ mkUser (nat_toString (n + 1))
         (JStr ("Additional User " ++ nat_toString (n + 1))) (JStr "(999) 000-0000");
       mkUser (nat_toString (n + 2))
         (JStr ("Additional User " ++ nat_toString (n + 2))) (JStr "(999) 111-1111");
       mkUser (nat_toString (n + 3))
         (JStr ("Additional User " ++ nat_toString (n + 3))) (JStr "(999) 222-2222");
       mkUser (nat_toString (n + 4))
         (JStr ("Additional User " ++ nat_toString (n + 4))) (JStr "(999) 333-3333");
       mkUser (nat_toString (n + 5))
         (JStr ("Additional User " ++ nat_toString (n + 5))) (JStr "(999) 444-4444")
     ])%list.
Proof.
  intros Hm Hl n.
  rewrite (loadMoreContacts_past_guard s Hm Hl).
  split; [reflexivity|]. split; [reflexivity|].
  rewrite loadMoreTimeout_contacts, additionalContacts_five. reflexivity.
Qed.

(** C4: when [hasMoreData] is false or [loadingMore] is true,
    [loadMoreContacts] returns at its guard: the state after the call is the
    state before it, so the collection and the three flags are the same (and
    no timer was set). *)
Theorem loadMoreContacts_guard_noop s :
  hasMoreData s = false \/ loadingMore s = true ->
  loadMoreContacts s = s /\
  contacts (loadMoreContacts s) = contacts s /\
  loading (loadMoreContacts s) = loading s /\
  loadingMore (loadMoreContacts s) = loadingMore s /\
  hasMoreData (loadMoreContacts s) = hasMoreData s.
Proof.
  intros Hguard.
  assert (Hsame : loadMoreContacts s = s).
  { unfold loadMoreContacts. destruct Hguard as [-> | ->].
    - reflexivity.
    - now rewrite orb_true_r. }
  rewrite Hsame. repeat split; reflexivity.
Qed.

(** ** Histories of the mounted component *)

Lemma run_app s es1 es2 :
  run s (es1 ++ es2) =
  match run s es1 with
  | Some s1 => run s1 es2
  | None => None
  end.
Proof.
  revert s; induction es1 as [|e es1 IH]; intros s; simpl.
  - reflexivity.
  - destruct (step s e); [apply IH|reflexivity].
Qed.

Lemma run_cons s e s1 es :
  step s e = Some s1 -> run s (e :: es) = run s1 es.
Proof. intros Hstep. cbn [run]. now rewrite Hstep. Qed.

Lemma mounted_quiescent : quiescent mounted.
Proof. repeat split. intros Hl. discriminate Hl. Qed.

Lemma fetchContacts_quiescent s :
  quiescent s -> loading s = false -> quiescent (fetchContacts s).
Proof.
  intros (Hlm & Ht & _ & Hf) Hl. rewrite Hl in Hf.
  unfold quiescent, fetchContacts; cbn.
  repeat split; try assumption.
  - intros Habs. discriminate Habs.
  - now rewrite Hf.
Qed.

Lemma step_quiescent s e s' :
  quiescent s -> step s e = Some s' -> quiescent s'.
Proof.
  intros Hq Hstep. pose proof Hq as (Hlm & Ht & Hh & Hf).
  destruct e; simpl in Hstep.
  - destruct (loading s) eqn:Hl; [discriminate|].
    injection Hstep as <-. now apply fetchContacts_quiescent.
  - destruct (loading s) eqn:Hl; [discriminate|].
    destruct (contacts s); [|discriminate].
    injection Hstep as <-. now apply fetchContacts_quiescent.
  - destruct (loading s) eqn:Hl; [discriminate|].
    rewrite (Hh eq_refl) in Hstep. discriminate.
  - destruct (pendingFetches s) as [|n] eqn:Hn; [discriminate|].
    injection Hstep as <-.
    destruct (loading s); [|discriminate].
    injection Hf as ->.
    unfold quiescent.
    rewrite resume_loadingMore, resume_loading, resume_hasMoreData.
    destruct (resume_pending r (setPendingFetches 0 s)) as [-> ->].
    cbn. repeat split; assumption.
  - rewrite Ht in Hstep. discriminate.
Qed.

Lemma run_quiescent es : forall s s',
  quiescent s -> run s es = Some s' -> quiescent s'.
Proof.
  induction es as [|e es IH]; intros s s' Hq Hrun; simpl in Hrun.
  - now injection Hrun as <-.
  - destruct (step s e) as [s1|] eqn:Hstep; [|discriminate].
    eapply IH; [|exact Hrun]. eapply step_quiescent; eassumption.
Qed.

Lemma reachable_quiescent s : reachable s -> quiescent s.
Proof.
  intros [es Hrun]. eapply run_quiescent; [apply mounted_quiescent|exact Hrun].
Qed.

Lemma step_hasMoreData_false s e s' :
  hasMoreData s = false -> step s e = Some s' -> hasMoreData s' = false.
Proof.
  intros Hm Hstep. destruct e; simpl in Hstep.
  - destruct (loading s); [discriminate|]. now injection Hstep as <-.
  - destruct (loading s); [discriminate|].
    destruct (contacts s); [|discriminate]. now injection Hstep as <-.
  - destruct (loading s); [discriminate|].
    rewrite Hm in Hstep. discriminate.
  - destruct (pendingFetches s); [discriminate|].
    injection Hstep as <-. apply resume_hasMoreData.
  - destruct (pendingTimeouts s); [discriminate|].
    injection Hstep as <-. rewrite loadMoreTimeout_hasMoreData.
    cbn. now rewrite Hm.
Qed.

Lemma run_hasMoreData_false es : forall s s',
  hasMoreData s = false -> run s es = Some s' -> hasMoreData s' = false.
Proof.
  induction es as [|e es IH]; intros s s' Hm Hrun; simpl in Hrun.
  - now injection Hrun as <-.
  - destruct (step s e) as [s1|] eqn:Hstep; [|discriminate].
    eapply IH; [|exact Hrun]. eapply step_hasMoreData_false; eassumption.
Qed.

Lemma step_contacts s e s' acc cur :
  quiescent s -> contacts s = collectionAfter acc cur ->
  step s e = Some s' ->
  contacts s' = collectionAfter (lastSettled acc [e]) cur.
Proof.
  intros (Hlm & Ht & Hh & Hf) Hc Hstep. destruct e; simpl in *.
  - destruct (loading s); [discriminate|]. now injection Hstep as <-.
  - destruct (loading s); [discriminate|].
    destruct (contacts s) eqn:Hcs; [|discriminate].
    injection Hstep as <-. cbn. now rewrite Hcs.
  - destruct (loading s); [discriminate|].
    rewrite (Hh eq_refl) in Hstep. discriminate.
  - destruct (pendingFetches s); [discriminate|].
    injection Hstep as <-. apply resume_contacts.
  - rewrite Ht in Hstep. discriminate.
Qed.

Lemma lastSettled_cons acc e es :
  lastSettled acc (e :: es) = lastSettled (lastSettled acc [e]) es.
Proof. destruct e; reflexivity. Qed.

Lemma run_contacts es : forall s s' acc cur,
  quiescent s -> contacts s = collectionAfter acc cur ->
  run s es = Some s' ->
  contacts s' = collectionAfter (lastSettled acc es) cur.
Proof.
  induction es as [|e es IH]; intros s s' acc cur Hq Hc Hrun.
  - simpl in Hrun. injection Hrun as <-. exact Hc.
  - cbn [run] in Hrun.
    destruct (step s e) as [s1|] eqn:Hstep; [|discriminate].
    rewrite lastSettled_cons.
    apply (IH s1 s' _ cur); [| |exact Hrun].
    + eapply step_quiescent; eassumption.
    + eapply step_contacts; eassumption.
Qed.

Lemma mockContacts_distinctIds : distinctIds mockContacts.
Proof.
  unfold distinctIds. cbn [map mockContacts id].
  repeat (constructor; [cbn [In]; intuition discriminate|]).
  constructor.
Qed.

(** C6: in every state the mounted component can reach, whatever the order
    of refreshes, retries, end-of-list signals, settled requests and
    elapsed timers, [loading] and [loadingMore] are not both true. *)
Theorem loading_and_loadingMore_exclusive s :
  reachable s -> ~ (loading s = true /\ loadingMore s = true).
Proof.
  intros Hr [_ Hlm].
  destruct (reachable_quiescent s Hr) as (Hq & _).
  rewrite Hq in Hlm. discriminate.
Qed.

(** C7: once [hasMoreData] is false it is false in every state that
    follows, whatever happens next. *)
Theorem hasMoreData_false_forever s es s' :
  hasMoreData s = false -> run s es = Some s' -> hasMoreData s' = false.
Proof. apply run_hasMoreData_false. Qed.

(** C8, as the code has it: in every reachable state the ids of the
    collection are pairwise distinct, provided the response that settled
    last, if it was mapped, gave records with pairwise distinct ids. *)
Theorem reachable_ids_distinct_if_response_distinct es s :
  run mounted es = Some s ->
  (forall r recs, lastSettled None es = Some r ->
                  fetchTry r = inr recs -> distinctIds recs) ->
  distinctIds (contacts s).
Proof.
  intros Hrun Hresp.
  rewrite (run_contacts es mounted s None [] mounted_quiescent eq_refl Hrun).
  destruct (lastSettled None es) as [r|] eqn:Hlast; cbn [collectionAfter].
  - unfold fetchedContacts. destruct (fetchTry r) as [e|recs] eqn:Htry.
    + apply mockContacts_distinctIds.
    + now apply (Hresp r).
  - constructor.
Qed.

Lemma fetchContacts_loading s :
  loading (fetchContacts s) = true /\ contacts (fetchContacts s) = contacts s /\
  pendingFetches (fetchContacts s) = S (pendingFetches s).
Proof. repeat split. Qed.

Lemma refresh_enabled s :
  loading s = false -> step s PullToRefresh = Some (fetchContacts s).
Proof. intros Hl. cbn [step]. now rewrite Hl. Qed.

(** C9: a refresh (the pull gesture or the Retry button, both wired to
    [fetchContacts]) sets [loading] before the request goes out and clears
    it when the request settles, and the collection is then the mapped
    response, or the mock records if the [try] block threw: nothing of the
    collection before the refresh is kept. *)
Theorem refresh_replaces_collection s e s1 r :
  e = PullToRefresh \/ e = PressRetry ->
  step s e = Some s1 ->
  loading s1 = true /\ contacts s1 = contacts s /\
  exists s2,
    step s1 (FetchSettled r) = Some s2 /\
    loading s2 = false /\
    (forall recs, fetchTry r = inr recs -> contacts s2 = recs) /\
    (forall e', fetchTry r = inl e' -> contacts s2 = mockContacts).
Proof.
  intros He Hstep.
  assert (Hs1 : s1 = fetchContacts s).
  { destruct He as [-> | ->]; cbn [step] in Hstep;
      destruct (loading s); try discriminate.
    - now injection Hstep as <-.
    - destruct (contacts s); [|discriminate]. now injection Hstep as <-. }
  subst s1. destruct (fetchContacts_loading s) as (Hl & Hc & Hp).
  split; [exact Hl|]. split; [exact Hc|].
  exists (fetchContacts_resume r
            (setPendingFetches (pendingFetches s) (fetchContacts s))).
  split; [cbn [step]; now rewrite Hp|].
  split; [apply resume_loading|]. split.
  - intros recs Hok. rewrite resume_contacts. unfold fetchedContacts.
    now rewrite Hok.
  - intros e' Hthrow. rewrite resume_contacts. unfold fetchedContacts.
    now rewrite Hthrow.
Qed.

(** C10: a settled [fetchContacts] leaves [hasMoreData] false; the list is
    never on screen with [hasMoreData] true, so in no reachable state is an
    end-of-list signal delivered or a pagination timer owed; after the
    first settled request [loadMoreContacts] is a no-op; and the collection
    is always what the last settled request gave, never extended. *)
Theorem pagination_never_appends :
  (forall r s, hasMoreData (fetchContacts_resume r s) = false) /\
  (forall s, reachable s ->
     step s EndReached = None /\ step s TimeoutElapsed = None /\
     (loading s = false -> hasMoreData s = false /\ loadMoreContacts s = s)) /\
  (forall es1 r es2 s,
     run mounted (es1 ++ FetchSettled r :: es2) = Some s ->
     hasMoreData s = false /\ loadMoreContacts s = s) /\
  (forall es s, run mounted es = Some s ->
     contacts s = collectionAfter (lastSettled None es) []).
Proof.
  assert (Hnoop : forall s, hasMoreData s = false -> loadMoreContacts s = s).
  { intros s Hm. unfold loadMoreContacts. now rewrite Hm. }
  split; [exact resume_hasMoreData|]. split; [|split].
  - intros s Hr. destruct (reachable_quiescent s Hr) as (Hlm & Ht & Hh & Hf).
    split; [|split].
    + cbn [step]. destruct (loading s); [reflexivity|].
      now rewrite (Hh eq_refl).
    + cbn [step]. now rewrite Ht.
    + intros Hl. split; [now apply Hh|]. apply Hnoop. now apply Hh.
  - intros es1 r es2 s Hrun. rewrite run_app in Hrun.
    destruct (run mounted es1) as [s1|]; [|discriminate].
    cbn [run] in Hrun.
    destruct (step s1 (FetchSettled r)) as [s2|] eqn:Hstep; [|discriminate].
    assert (Hm2 : hasMoreData s2 = false).
    { cbn [step] in Hstep. destruct (pendingFetches s1); [discriminate|].
      injection Hstep as <-. apply resume_hasMoreData. }
    pose proof (run_hasMoreData_false es2 s2 s Hm2 Hrun) as Hm.
    split; [exact Hm|now apply Hnoop].
  - intros es s Hrun.
    exact (run_contacts es mounted s None [] mounted_quiescent eq_refl Hrun).
Qed.

(** ** Which responses are accepted *)

Lemma sequence_Forall2 {A} (cs : list (Try A)) (l : list A) :
  sequence cs = inr l <-> Forall2 (fun c a => c = inr a) cs l.
Proof.
  revert l; induction cs as [|c cs IH]; intros l; simpl.
  - split.
    + intros [= <-]. constructor.
    + intros Hf. inversion Hf. reflexivity.
  - split.
    + destruct c as [e|a]; simpl; [discriminate|].
      destruct (sequence cs) as [e|l'] eqn:Hrest; simpl; [discriminate|].
      intros [= <-]. constructor; [reflexivity|]. now apply IH.
    + intros Hf. inversion Hf as [|c' a cs' l' Hc Hrest]; subst.
      apply IH in Hrest. rewrite Hrest. reflexivity.
Qed.

Lemma sequence_throws {A} (cs : list (Try A)) e :
  In (inl e) cs -> exists e', sequence cs = inl e'.
Proof.
  induction cs as [|c cs IH]; intros Hin; [destruct Hin|].
  destruct Hin as [-> | Hin]; simpl.
  - exists e. reflexivity.
  - destruct c as [e0|a]; simpl; [now exists e0|].
    destruct (IH Hin) as [e' ->]. now exists e'.
Qed.

Lemma Forall2_map_left {A B C} (f : A -> B) (R : B -> C -> Prop) l l' :
  Forall2 R (map f l) l' <-> Forall2 (fun a c => R (f a) c) l l'.
Proof.
  revert l'; induction l as [|a l IH]; intros l'; simpl.
  - split; intros Hf; inversion Hf; constructor.
  - split; intros Hf; inversion Hf; subst; constructor; try assumption;
      now apply IH.
Qed.

Lemma resume_of_throw r e s :
  fetchTry r = inl e ->
  contacts (fetchContacts_resume r s) = mockContacts /\
  hasMoreData (fetchContacts_resume r s) = false.
Proof.
  intros Hthrow. split; [|apply resume_hasMoreData].
  rewrite resume_contacts. unfold fetchedContacts. now rewrite Hthrow.
Qed.

(** X1: an answer in the 200-299 range whose body is JSON but not an array
    (an object wrapping the list, a string, a number, null) is handled as
    a failure: the [map] call throws and the mock records are shown. *)
Theorem non_array_body_gives_mock status d s :
  ok status = true ->
  (forall items, d <> JArr items) ->
  fetchTry (Response status (Some d)) = throw TypeError /\
  contacts (fetchContacts_resume (Response status (Some d)) s) = mockContacts /\
  hasMoreData (fetchContacts_resume (Response status (Some d)) s) = false.
Proof.
  intros Hok Hnot.
  assert (Hthrow : fetchTry (Response status (Some d)) = throw TypeError).
  { unfold fetchTry. rewrite Hok. cbn [negb bind ret].
    destruct d; try reflexivity. now destruct (Hnot items). }
  split; [exact Hthrow|]. exact (resume_of_throw _ _ s Hthrow).
Qed.

(** X2: one element that cannot be mapped discards the whole answer: the
    records of the other elements are not kept, the mock records are
    shown. *)
Theorem one_bad_element_discards_response status items user e s :
  In user items -> toContact user = inl e ->
  (exists e', fetchTry (Response status (Some (JArr items))) = inl e') /\
  contacts (fetchContacts_resume (Response status (Some (JArr items))) s)
    = mockContacts.
Proof.
  intros Hin Hbad.
  assert (Hthrow : exists e', fetchTry (Response status (Some (JArr items))) = inl e').
  { unfold fetchTry. destruct (ok status); cbn [negb bind ret]; [|eauto].
    cbn [dataMap]. apply (sequence_throws _ e).
    rewrite <- Hbad. now apply in_map. }
  split; [exact Hthrow|].
  destruct Hthrow as [e' Hthrow]. exact (proj1 (resume_of_throw _ _ s Hthrow)).
Qed.

(** X3: an element is mapped to a record exactly when it is an object with
    an own [id] that [toString] can print; a missing [name] or [phone] does
    not stop it, the record then holds [undefined] there. *)
Theorem toContact_succeeds_iff user rec :
  toContact user = inr rec <->
  exists props uid,
    user = JObj props /\
    ownProperty "id" props = Some uid /\
    toString uid = inr (id rec) /\
    name rec = match ownProperty "name" props with
               | Some v => v
               | None => JUndefined
               end /\
    phone rec = match ownProperty "phone" props with
                | Some v => v
                | None => JUndefined
                end.
Proof.
  split.
  - intros Hrec. destruct (toContact_inr _ _ Hrec) as (uid & Hid & Hsid & Hn & Hp).
    destruct user as [| | b | n | str | items | props]; cbn in Hid;
      try discriminate; try (injection Hid as <-; discriminate Hsid).
    exists props.
    cbn [getProp] in Hid, Hn, Hp.
    destruct (ownProperty "id" props) as [v|] eqn:Hv;
      injection Hid as <-; [|discriminate Hsid].
    exists v. repeat split; try assumption.
    + destruct (ownProperty "name" props); now injection Hn.
    + destruct (ownProperty "phone" props); now injection Hp.
  - intros (props & uid & -> & Hid & Hsid & Hn & Hp).
    unfold toContact. cbn [getProp]. rewrite Hid. cbn [bind ret].
    rewrite Hsid. cbn [bind ret]. destruct rec as [i n p]. cbn in *.
    rewrite Hn, Hp.
    destruct (ownProperty "name" props), (ownProperty "phone" props);
      reflexivity.
Qed.

(** X4: the [try] block completes exactly when the status is in 200-299,
    the body is a JSON array and every element of it is mapped; the records
    are then the images of the elements, in order. *)
Theorem fetchTry_succeeds_iff r recs :
  fetchTry r = inr recs <->
  exists status items,
    r = Response status (Some (JArr items)) /\
    ok status = true /\
    Forall2 (fun user rec => toContact user = inr rec) items recs.
Proof.
  split.
  - destruct r as [|status json]; [discriminate|].
    intros Hok. pose proof (fetchTry_inr_ok _ _ _ Hok) as Hstatus.
    unfold fetchTry in Hok. rewrite Hstatus in Hok. cbn [negb] in Hok.
    destruct json as [d|]; [|discriminate].
    cbn [bind ret] in Hok.
    destruct d; try discriminate.
    exists status, items. split; [reflexivity|]. split; [assumption|].
    cbn [dataMap] in Hok. apply sequence_Forall2 in Hok.
    now apply Forall2_map_left in Hok.
  - intros (status & items & -> & Hstatus & Hall).
    rewrite (fetchTry_array _ _ Hstatus).
    apply sequence_Forall2. now apply Forall2_map_left.
Qed.

(** ** The rendered tree *)

Lemma render_loading s : loading s = true -> render s = LoadingContainer.
Proof. intros Hl. unfold render. now rewrite Hl. Qed.

Lemma render_container s p :
  render s = Container p ->
  loading s = false /\
  p = {| data := contacts s;
         onEndReached := if hasMoreData s then Some HLoadMoreContacts else None;
         ListFooterComponent :=
           if loadingMore s then LoadMoreIndicator
           else if negb (hasMoreData s) && (0 <? List.length (contacts s))%nat
                then EndMessage
                else NoFooter;
         ListEmptyComponent := Some HFetchContacts;
         refreshingProp := false;
         onRefresh := HFetchContacts |}.
Proof.
  unfold render. destruct (loading s); [discriminate|].
  intros [= <-]. split; reflexivity.
Qed.

(** X5: the Retry button is offered exactly when the list is on screen and
    the collection is empty; a successful answer with an empty array leads
    there, with [hasMoreData] false. *)
Theorem retry_offered_iff_empty s :
  (offered (render s) PressRetry = Some HFetchContacts <->
   loading s = false /\ contacts s = []) /\
  (forall status, ok status = true ->
     let s' := fetchContacts_resume (Response status (Some (JArr []))) s in
     contacts s' = [] /\ hasMoreData s' = false /\
     offered (render s') PressRetry = Some HFetchContacts).
Proof.
  assert (Hiff : forall t, offered (render t) PressRetry = Some HFetchContacts <->
                           loading t = false /\ contacts t = []).
  { intros t. unfold render. destruct (loading t) eqn:Hl; cbn.
    - split; [discriminate|]. intros [Habs _]. discriminate.
    - unfold emptyShown; cbn. destruct (contacts t); split.
      + now split.
      + reflexivity.
      + discriminate.
      + intros [_ Habs]. discriminate. }
  split; [apply Hiff|].
  intros status Hok s'.
  assert (Hc : contacts s' = []).
  { unfold s'. rewrite resume_contacts. unfold fetchedContacts.
    now rewrite (fetchTry_array _ _ Hok). }
  split; [exact Hc|]. split; [apply resume_hasMoreData|].
  apply Hiff. split; [apply resume_loading|exact Hc].
Qed.

(** X6: a gesture changes the state exactly as the handler that the
    rendered tree offers for it does, and does nothing when the tree offers
    none. *)
Theorem step_follows_render s e :
  gesture e = true ->
  step s e =
  match offered (render s) e with
  | Some h => Some (invoke h s)
  | None => None
  end.
Proof.
  intros Hg. unfold render.
  destruct e; try discriminate Hg; cbn [step];
    destruct (loading s); cbn; try reflexivity.
  - unfold emptyShown; cbn. destruct (contacts s); reflexivity.
  - destruct (hasMoreData s); reflexivity.
Qed.

(** X7: whenever the list is rendered its [refreshing] prop is false and
    its [ListEmptyComponent] is the Retry view, never [null]; the end
    message is only the footer of a list that has rows, so it is never
    shown together with the Retry view. *)
Theorem list_props_never_refreshing s p :
  render s = Container p ->
  refreshingProp p = false /\
  ListEmptyComponent p = Some HFetchContacts /\
  (ListFooterComponent p = EndMessage -> data p <> [] /\ emptyShown p = None).
Proof.
  intros Hr. destruct (render_container s p Hr) as [_ ->].
  split; [reflexivity|]. split; [reflexivity|].
  cbn. unfold emptyShown; cbn.
  destruct (loadingMore s); [discriminate|].
  destruct (hasMoreData s); cbn; [discriminate|].
  destruct (contacts s); cbn; [discriminate|].
  intros _. split; [discriminate|reflexivity].
Qed.

(** X8: in every reachable state in which the list is rendered,
    [onEndReached] is [null] and the footer is never the activity
    indicator: an empty list shows the Retry view and no footer, a list
    with rows shows the end message. *)
Theorem reachable_list_footer s p :
  reachable s -> render s = Container p ->
  onEndReached p = None /\
  ListFooterComponent p <> LoadMoreIndicator /\
  (data p = [] ->
     emptyShown p = Some HFetchContacts /\ ListFooterComponent p = NoFooter) /\
  (data p <> [] ->
     emptyShown p = None /\ ListFooterComponent p = EndMessage).
Proof.
  intros Hreach Hr.
  destruct (reachable_quiescent s Hreach) as (Hlm & _ & Hh & _).
  destruct (render_container s p Hr) as [Hl ->].
  rewrite Hlm, (Hh Hl). unfold emptyShown. cbn.
  split; [reflexivity|]. split; [destruct (contacts s); discriminate|].
  split; intros Hd; destruct (contacts s); try discriminate;
    try (now destruct Hd); split; reflexivity.
Qed.

(** X9: in every reachable state at most one request is out, and the
    full-screen activity indicator is rendered exactly while one is. *)
Theorem one_request_at_a_time s :
  reachable s ->
  pendingFetches s <= 1 /\
  (render s = LoadingContainer <-> pendingFetches s = 1).
Proof.
  intros Hreach.
  destruct (reachable_quiescent s Hreach) as (_ & _ & _ & Hf).
  unfold render. destruct (loading s); rewrite Hf.
  - split; [lia|]. split; reflexivity.
  - split; [lia|]. split; discriminate.
Qed.

(** X10: the row of a mapped element alerts the element's name when
    pressed: "You clicked on <name>" for a string, and "You clicked on
    undefined" when the element has no [name]. *)
Theorem press_alerts_name user rec :
  toContact user = inr rec ->
  itemName (renderItem rec) = name rec /\
  (forall n, getProp user "name" = inr (JStr n) ->
     itemOnPress (renderItem rec) = inr ("You clicked on " ++ n)) /\
  (getProp user "name" = inr JUndefined ->
     itemOnPress (renderItem rec) = inr "You clicked on undefined").
Proof.
  intros Hrec. destruct (toContact_inr _ _ Hrec) as (_ & _ & _ & Hn & _).
  split; [reflexivity|]. rewrite Hn. cbn [renderItem itemOnPress].
  split.
  - intros n [= ->]. reflexivity.
  - intros [= ->]. reflexivity.
Qed.

(** X11: the failure alert is raised exactly when the [try] block throws,
    that is exactly when the mock records are substituted for a thrown
    error; it always starts with "Failed to load contacts: ", and for a
    status outside 200-299 it ends with "HTTP error! Status: <status>". *)
Theorem failure_alert_text engine r :
  (fetchContacts_alert engine r = None <-> exists recs, fetchTry r = inr recs) /\
  (forall text, fetchContacts_alert engine r = Some text ->
     (exists e, fetchTry r = inl e /\
                text = "Failed to load contacts: " ++ errorMessage engine e) /\
     forall s, contacts (fetchContacts_resume r s) = mockContacts) /\
  (forall status json, r = Response status json -> ok status = false ->
     fetchContacts_alert engine r =
     Some ("Failed to load contacts: HTTP error! Status: " ++ nat_toString status)).
Proof.
  unfold fetchContacts_alert. split; [|split].
  - destruct (fetchTry r) as [e|recs]; split; try discriminate.
    + intros [recs Habs]. discriminate.
    + intros _. now exists recs.
    + reflexivity.
  - intros text. destruct (fetchTry r) as [e|recs] eqn:Htry; [|discriminate].
    intros [= <-]. split; [now exists e|].
    intros s. exact (proj1 (resume_of_throw r e s Htry)).
  - intros status json -> Hok. now rewrite (fetchTry_http_error _ _ Hok).
Qed.

(** ** Pages *)

Lemma nat_toString_inj n m : nat_toString n = nat_toString m -> n = m.
Proof.
  assert (Hnonnil : forall k, Nat.to_uint k <> Decimal.Nil).
  { intros k. rewrite <- (DecimalNat.Unsigned.of_to k) at 1.
    rewrite DecimalNat.Unsigned.to_of. apply DecimalFacts.unorm_nonnil. }
  unfold nat_toString. intros Heq.
  apply DecimalNat.Unsigned.to_uint_inj.
  pose proof (NilZero.usu _ (Hnonnil n)) as Hn.
  pose proof (NilZero.usu _ (Hnonnil m)) as Hm.
  rewrite Heq in Hn. rewrite Hn in Hm. now injection Hm.
Qed.

Lemma additionalContacts_ids n :
  map id (additionalContacts n) = map nat_toString (seq (n + 1) 5).
Proof.
  rewrite additionalContacts_five. cbn [map id seq].
  replace (S (n + 1)) with (n + 2) by lia.
  replace (S (n + 2)) with (n + 3) by lia.
  replace (S (n + 3)) with (n + 4) by lia.
  replace (S (n + 4)) with (n + 5) by lia.
  reflexivity.
Qed.

Lemma printed_ids_distinct a len : NoDup (map nat_toString (seq a len)).
Proof.
  apply Finite.Injective_map_NoDup; [|apply seq_NoDup].
  intros n m. apply nat_toString_inj.
Qed.

Lemma loadMoreTimeout_pending c s :
  pendingTimeouts (loadMoreTimeout c s) = pendingTimeouts s /\
  pendingFetches (loadMoreTimeout c s) = pendingFetches s.
Proof. unfold loadMoreTimeout. destruct (30 <=? _)%nat; split; reflexivity. Qed.

(** One page from a state that shows the list and owes no timer. *)
Lemma page_run s :
  loading s = false -> hasMoreData s = true -> loadingMore s = false ->
  pendingTimeouts s = [] ->
  exists s1,
    run s [EndReached; TimeoutElapsed] = Some s1 /\
    contacts s1 = (contacts s ++ additionalContacts (List.length (contacts s)))%list /\
    loading s1 = false /\ loadingMore s1 = false /\ pendingTimeouts s1 = [] /\
    hasMoreData s1 = (List.length (contacts s) + 5 <? 30)%nat.
Proof.
  intros Hl Hm Hlm Ht.
  exists (loadMoreTimeout (contacts s)
            (setPendingTimeouts [] (setLoadingMore true s))).
  split.
  - cbn [run step]. rewrite Hl, Hm.
    rewrite (loadMoreContacts_past_guard s Hm Hlm), Ht. reflexivity.
  - rewrite loadMoreTimeout_contacts, loadMoreTimeout_loading,
      loadMoreTimeout_loadingMore, loadMoreTimeout_hasMoreData.
    destruct (loadMoreTimeout_pending (contacts s)
                (setPendingTimeouts [] (setLoadingMore true s))) as [-> _].
    cbn. rewrite Hm. repeat split; try assumption.
Qed.



Lemma pages_run k : forall s,
  loading s = false -> loadingMore s = false -> pendingTimeouts s = [] ->
  hasMoreData s = (List.length (contacts s) <? 30)%nat ->
  List.length (contacts s) + 5 * k < 35 ->
  exists s',
    run s (pageEvents k) = Some s' /\
    map id (contacts s') =
      (map id (contacts s)
         ++ map nat_toString (seq (List.length (contacts s) + 1) (5 * k)))%list /\
    loading s' = false /\ loadingMore s' = false /\ pendingTimeouts s' = [] /\
    hasMoreData s' = (List.length (contacts s) + 5 * k <? 30)%nat.
Proof.
  induction k as [|k IH]; intros s Hl Hlm Ht Hm Hk.
  - exists s. cbn [pageEvents run]. rewrite Nat.mul_0_r, Nat.add_0_r.
    cbn [seq map]. rewrite app_nil_r. repeat split; assumption.
  - assert (Hlt : (List.length (contacts s) <? 30)%nat = true)
      by (apply Nat.ltb_lt; lia).
    rewrite Hlt in Hm.
    destruct (page_run s Hl Hm Hlm Ht) as (s1 & Hrun1 & Hc1 & Hl1 & Hlm1 & Ht1 & Hm1).
    assert (Hlen1 : List.length (contacts s1) = List.length (contacts s) + 5).
    { rewrite Hc1, length_app, additionalContacts_length. reflexivity. }
    destruct (IH s1 Hl1 Hlm1 Ht1) as (s' & Hrun & Hids & Hl' & Hlm' & Ht' & Hm').
    { now rewrite Hlen1. }
    { lia. }
    exists s'. split; [|split].
    + change (pageEvents (S k))
        with ([EndReached; TimeoutElapsed] ++ pageEvents k)%list.
      rewrite run_app, Hrun1. exact Hrun.
    + rewrite Hids, Hlen1, Hc1, map_app, additionalContacts_ids.
      rewrite <- app_assoc. f_equal. rewrite <- map_app. f_equal.
      replace (5 * S k) with (5 + 5 * k) by lia.
      rewrite seq_app. do 2 f_equal. lia.
    + rewrite Hlen1 in Hm'.
      replace (List.length (contacts s) + 5 * S k)
        with (List.length (contacts s) + 5 + 5 * k) by lia.
      repeat split; assumption.
Qed.

(** X12: the ids of a new page are fresh when the collection is numbered
    from 1: if the ids are "1" to "n" printed in decimal ([n] the length),
    then after the five records of [additionalContacts] they are "1" to
    "n+5", pairwise distinct. *)
Theorem additionalContacts_ids_fresh c :
  map id c = map nat_toString (seq 1 (List.length c)) ->
  map id (c ++ additionalContacts (List.length c))%list
    = map nat_toString (seq 1 (List.length c + 5)) /\
  distinctIds (c ++ additionalContacts (List.length c))%list.
Proof.
  intros Hids.
  assert (Hall : map id (c ++ additionalContacts (List.length c))%list
                 = map nat_toString (seq 1 (List.length c + 5))).
  { rewrite map_app, Hids, additionalContacts_ids, <- map_app, seq_app.
    do 3 f_equal. lia. }
  split; [exact Hall|].
  unfold distinctIds. rewrite Hall. apply printed_ids_distinct.
Qed.

(** X13: from a list on screen with fewer than 30 records, [hasMoreData]
    true and no pagination in progress, [k] pages asked for one after the
    other (as long as each is asked with fewer than 30 records) all pass
    the guard: the ids appended are the numbers after the old length, in
    order, and [hasMoreData] is then whether the new length is below 30.
    When it is not, the end of the list is no longer signalled, and the
    collection has between 30 and 34 records. *)
Theorem pages_append_consecutive_ids k s :
  loading s = false -> hasMoreData s = true -> loadingMore s = false ->
  pendingTimeouts s = [] ->
  List.length (contacts s) < 30 ->
  List.length (contacts s) + 5 * k < 35 ->
  exists s',
    run s (pageEvents k) = Some s' /\
    map id (contacts s') =
      (map id (contacts s)
         ++ map nat_toString (seq (List.length (contacts s) + 1) (5 * k)))%list /\
    List.length (contacts s') = List.length (contacts s) + 5 * k /\
    hasMoreData s' = (List.length (contacts s) + 5 * k <? 30)%nat /\
    (hasMoreData s' = false ->
       step s' EndReached = None /\
       30 <= List.length (contacts s') <= 34).
Proof.
  intros Hl Hm Hlm Ht Hn Hk.
  assert (Hm' : hasMoreData s = (List.length (contacts s) <? 30)%nat).
  { rewrite Hm. symmetry. now apply Nat.ltb_lt. }
  destruct (pages_run k s Hl Hlm Ht Hm' Hk)
    as (s' & Hrun & Hids & Hl' & _ & _ & Hmore).
  assert (Hlen : List.length (contacts s') = List.length (contacts s) + 5 * k).
  { rewrite <- (length_map id (contacts s')), Hids.
    now rewrite length_app, !length_map, length_seq. }
  exists s'. split; [exact Hrun|]. split; [exact Hids|].
  split; [exact Hlen|]. split; [exact Hmore|].
  intros Hend. split.
  - cbn [step]. now rewrite Hl', Hend.
  - rewrite Hmore in Hend. apply Nat.ltb_ge in Hend. lia.
Qed.

(** ** One pagination at a time *)

Lemma step_singlePagination s e s' :
  singlePagination s -> step s e = Some s' -> singlePagination s'.
Proof.
  intros Hsp Hstep. destruct e; cbn [step] in Hstep.
  - destruct (loading s); [discriminate|]. injection Hstep as <-. exact Hsp.
  - destruct (loading s); [discriminate|].
    destruct (contacts s); [|discriminate]. injection Hstep as <-. exact Hsp.
  - destruct (loading s); [discriminate|].
    destruct (hasMoreData s) eqn:Hm; [|discriminate].
    injection Hstep as <-. unfold loadMoreContacts. rewrite Hm.
    destruct Hsp as [[Hlm Ht] | [Hlm Hc]]; rewrite Hlm; cbn [negb orb].
    + right. split; [reflexivity|]. exists (contacts s). cbn. now rewrite Ht.
    + right. now split.
  - destruct (pendingFetches s); [discriminate|]. injection Hstep as <-.
    unfold singlePagination. rewrite resume_loadingMore.
    destruct (resume_pending r (setPendingFetches n s)) as [_ ->]. exact Hsp.
  - destruct (pendingTimeouts s) as [|c rest] eqn:Ht; [discriminate|].
    injection Hstep as <-. left.
    split; [apply loadMoreTimeout_loadingMore|].
    destruct (loadMoreTimeout_pending c (setPendingTimeouts rest s)) as [-> _].
    cbn. destruct Hsp as [[_ Habs] | [_ [c' Hc']]].
    + congruence.
    + congruence.
Qed.

(** X14: when every end-of-list signal reaches the [loadMoreContacts] of
    the latest render, as [step] delivers it, paginations do not overlap:
    along every run from a state with at most one timer pending and
    [loadingMore] set exactly while one is, that stays so; a signal that
    arrives while a timer is pending sets no second one. *)
Theorem single_pagination_kept es : forall s s',
  singlePagination s -> run s es = Some s' ->
  singlePagination s' /\
  List.length (pendingTimeouts s') <= 1 /\
  (loadingMore s' = true <-> pendingTimeouts s' <> []).
Proof.
  assert (Hshape : forall t, singlePagination t ->
            List.length (pendingTimeouts t) <= 1 /\
            (loadingMore t = true <-> pendingTimeouts t <> [])).
  { intros t [[Hlm Ht] | [Hlm [c Hc]]]; rewrite Hlm.
    - rewrite Ht. split; [cbn; lia|]. split; [discriminate|]. now intros Habs.
    - rewrite Hc. split; [cbn; lia|]. split; [discriminate|reflexivity]. }
  induction es as [|e es IH]; intros s s' Hsp Hrun; cbn [run] in Hrun.
  - injection Hrun as <-. split; [exact Hsp|now apply Hshape].
  - destruct (step s e) as [s1|] eqn:Hstep; [|discriminate].
    apply (IH s1 s'); [|exact Hrun].
    eapply step_singlePagination; eassumption.
Qed.

(** X15: a refresh does not cancel a pending pagination.  From a list on
    screen with [hasMoreData] true: the end of the list is signalled, the
    user pulls to refresh (both [loading] and [loadingMore] are then true),
    the request settles, the timer elapses; the callback appends to the
    refreshed collection five records numbered after the length of the
    collection it had closed over. *)
Theorem refresh_during_pagination s r :
  loading s = false -> hasMoreData s = true -> loadingMore s = false ->
  pendingTimeouts s = [] ->
  (exists s1, run s [EndReached; PullToRefresh] = Some s1 /\
              loading s1 = true /\ loadingMore s1 = true) /\
  (exists s',
     run s [EndReached; PullToRefresh; FetchSettled r; TimeoutElapsed] = Some s' /\
     contacts s' =
       (fetchedContacts r ++ additionalContacts (List.length (contacts s)))%list /\
     loading s' = false /\ loadingMore s' = false /\ hasMoreData s' = false).
Proof.
  intros Hl Hm Hlm Ht.
  pose (s1 := setPendingTimeouts [contacts s] (setLoadingMore true s)).
  pose (s2 := fetchContacts s1).
  pose (s3 := fetchContacts_resume r (setPendingFetches (pendingFetches s1) s2)).
  pose (s4 := loadMoreTimeout (contacts s) (setPendingTimeouts [] s3)).
  assert (H1 : step s EndReached = Some s1).
  { cbn [step]. rewrite Hl, Hm, (loadMoreContacts_past_guard s Hm Hlm), Ht.
    reflexivity. }
  assert (H2 : step s1 PullToRefresh = Some s2).
  { cbn [step]. change (loading s1) with (loading s). now rewrite Hl. }
  assert (H3 : step s2 (FetchSettled r) = Some s3) by reflexivity.
  assert (H4 : step s3 TimeoutElapsed = Some s4).
  { cbn [step]. unfold s3 at 1.
    destruct (resume_pending r (setPendingFetches (pendingFetches s1) s2))
      as [_ ->].
    reflexivity. }
  split.
  - exists s2. rewrite (run_cons _ _ _ _ H1), (run_cons _ _ _ _ H2).
    repeat split; reflexivity.
  - exists s4.
    rewrite (run_cons _ _ _ _ H1), (run_cons _ _ _ _ H2),
      (run_cons _ _ _ _ H3), (run_cons _ _ _ _ H4).
    split; [reflexivity|]. unfold s4.
    rewrite loadMoreTimeout_contacts, loadMoreTimeout_loading,
      loadMoreTimeout_loadingMore, loadMoreTimeout_hasMoreData.
    cbn [contacts loading hasMoreData setPendingTimeouts].
    unfold s3. rewrite resume_contacts, resume_loading, resume_hasMoreData.
    repeat split; reflexivity.
Qed.

(** ** The empty list *)

Lemma lastSettled_some r es : lastSettled (Some r) es <> None.
Proof.
  revert r; induction es as [|e es IH]; intros r; [discriminate|].
  destruct e; cbn [lastSettled]; apply IH.
Qed.

Lemma nothing_settled_loading es s :
  run mounted es = Some s -> lastSettled None es = None -> loading s = true.
Proof.
  destruct es as [|e es]; intros Hrun Hlast.
  - cbn in Hrun. now injection Hrun as <-.
  - destruct e; try discriminate Hrun.
    cbn [lastSettled] in Hlast. now destruct (lastSettled_some r es).
Qed.

(** X16: in a reachable state the list is on screen and empty only after
    an answer in the 200-299 range whose body is the empty array: a failed
    request never leaves the list empty. *)
Theorem empty_list_only_after_empty_answer es s :
  run mounted es = Some s -> loading s = false -> contacts s = [] ->
  exists status,
    ok status = true /\
    lastSettled None es = Some (Response status (Some (JArr []))).
Proof.
  intros Hrun Hl Hc.
  pose proof (run_contacts es mounted s None [] mounted_quiescent eq_refl Hrun)
    as Hlast.
  destruct (lastSettled None es) as [r|] eqn:Hr.
  - cbn [collectionAfter] in Hlast. rewrite Hc in Hlast.
    unfold fetchedContacts in Hlast.
    destruct (fetchTry r) as [e|recs] eqn:Htry; [discriminate Hlast|].
    subst recs. destruct r as [|status json]; [discriminate Htry|].
    pose proof (fetchTry_inr_ok _ _ _ Htry) as Hok.
    exists status. split; [exact Hok|].
    unfold fetchTry in Htry. rewrite Hok in Htry. cbn [negb] in Htry.
    destruct json as [d|]; [|discriminate Htry].
    cbn [bind ret] in Htry. destruct d; try discriminate Htry.
    cbn [dataMap] in Htry. apply sequence_inr_length in Htry.
    rewrite length_map in Htry.
    destruct items; [reflexivity|discriminate Htry].
  - rewrite (nothing_settled_loading es s Hrun Hr) in Hl. discriminate.
Qed.

End Properties.

(** ** The properties at the sample inputs *)

(** An element without [id] makes the whole mapping throw: the mock
    records are shown instead. *)
Example missing_id_falls_back :
  fetchTry (Response 200 (Some (JArr (JObj [("name", JStr "No Id")] :: twoUsers))))
    = throw TypeError /\
  contacts (fetchContacts_resume
              (Response 200 (Some (JArr (JObj [("name", JStr "No Id")] :: twoUsers))))
              mounted) = mockContacts.
Proof. split; reflexivity. Qed.

(** A body that is JSON but not an array has no [map]. *)
Example object_body_falls_back :
  fetchTry (Response 200 (Some (JObj [("users", JArr twoUsers)]))) = throw TypeError.
Proof. reflexivity. Qed.

(** From ten records, one page: ids "1" to "15", and more data announced. *)
Example loadMore_from_ten :
  let s := loadMoreTimeout mockContacts (loadMoreContacts (paginating mockContacts)) in
  map id (contacts s) = map nat_toString (seq 1 15) /\ hasMoreData s = true.
Proof. split; reflexivity. Qed.

(** The session of a 404 at mount, then a refresh answered with two users:
    the end of the list is never signalled. *)
Example session_refresh :
  run mounted [FetchSettled notFound; PullToRefresh;
               FetchSettled (Response 200 (Some (JArr twoUsers)))]
  = Some {| contacts := twoContacts; loading := false; loadingMore := false;
            hasMoreData := false; pendingFetches := 0; pendingTimeouts := [] |} /\
  run mounted [FetchSettled notFound; EndReached] = None.
Proof. split; reflexivity. Qed.

Lemma fetchContacts_failure_gives_mock_witness :
  fetchTry notFound = throw (HttpError 404) /\
  contacts (fetchContacts_resume notFound mounted) = mockContacts /\
  hasMoreData (fetchContacts_resume notFound mounted) = false.
Proof.
  split; [reflexivity|].
  pose proof (fetchContacts_failure_gives_mock notFound (HttpError 404) mounted
                eq_refl) as Hw.
  split; [exact (proj1 Hw)|exact (proj1 (proj2 Hw))].
Defined.

Lemma fetchContacts_success_maps_array_witness :
  fetchTry (Response 200 (Some (JArr twoUsers))) = inr twoContacts /\
  contacts (fetchContacts_resume (Response 200 (Some (JArr twoUsers))) mounted)
    = twoContacts /\
  List.length twoContacts = List.length twoUsers.
Proof.
  split; [reflexivity|].
  pose proof (fetchContacts_success_maps_array 200 twoUsers twoContacts mounted
                eq_refl) as Hw.
  split; [exact (proj1 Hw)|exact (proj1 (proj2 Hw))].
Defined.

Lemma loadMoreContacts_appends_five_witness :
  hasMoreData (paginating mockContacts) = true /\
  loadingMore (paginating mockContacts) = false /\
  contacts (loadMoreTimeout mockContacts (loadMoreContacts (paginating mockContacts)))
  = (mockContacts ++
     [ mkUser "11" (JStr "Additional User 11") (JStr "(999) 000-0000");
       mkUser "12" (JStr "Additional User 12") (JStr "(999) 111-1111");
       mkUser "13" (JStr "Additional User 13") (JStr "(999) 222-2222");
       mkUser "14" (JStr "Additional User 14") (JStr "(999) 333-3333");
       mkUser "15" (JStr "Additional User 15") (JStr "(999) 444-4444") ])%list.
Proof.
  split; [reflexivity|]. split; [reflexivity|].
  exact (proj2 (proj2 (loadMoreContacts_appends_five (paginating mockContacts)
                         eq_refl eq_refl))).
Defined.

Lemma loadMoreContacts_guard_noop_witness :
  (hasMoreData settled = false \/ loadingMore settled = true) /\
  loadMoreContacts settled = settled.
Proof.
  split; [left; reflexivity|].
  exact (proj1 (loadMoreContacts_guard_noop settled (or_introl eq_refl))).
Defined.

Lemma loading_and_loadingMore_exclusive_witness :
  reachable refreshing /\
  ~ (loading refreshing = true /\ loadingMore refreshing = true).
Proof.
  assert (Hr : reachable refreshing)
    by (exists [FetchSettled notFound; PullToRefresh]; reflexivity).
  split; [exact Hr|].
  exact (loading_and_loadingMore_exclusive refreshing Hr).
Defined.

Lemma hasMoreData_false_forever_witness :
  hasMoreData settled = false /\
  exists s',
    run settled [PullToRefresh; FetchSettled (Response 200 (Some (JArr twoUsers)))]
      = Some s' /\
    hasMoreData s' = false.
Proof.
  split; [reflexivity|].
  eexists. split; [reflexivity|].
  apply (hasMoreData_false_forever settled
           [PullToRefresh; FetchSettled (Response 200 (Some (JArr twoUsers)))]);
    reflexivity.
Defined.

(** C8 as stated fails: one answer with the same id twice puts two records
    with id "7" in the collection. *)
Lemma same_id_twice_reachable :
  reachable sameIdState /\ ~ distinctIds (contacts sameIdState).
Proof.
  split.
  - exists [FetchSettled sameIdTwice]. reflexivity.
  - intros Hnd. unfold distinctIds in Hnd. cbn in Hnd.
    inversion Hnd as [|x l Hnotin _]. apply Hnotin. left. reflexivity.
Qed.

Lemma reachable_ids_distinct_if_response_distinct_witness :
  exists s,
    run mounted [FetchSettled (Response 200 (Some (JArr twoUsers)))] = Some s /\
    (forall r recs,
       lastSettled None [FetchSettled (Response 200 (Some (JArr twoUsers)))] = Some r ->
       fetchTry r = inr recs -> distinctIds recs) /\
    distinctIds (contacts s).
Proof.
  assert (Hresp : forall r recs,
             lastSettled None [FetchSettled (Response 200 (Some (JArr twoUsers)))]
               = Some r ->
             fetchTry r = inr recs -> distinctIds recs).
  { intros r recs Hlast Htry. cbn in Hlast. injection Hlast as <-.
    vm_compute in Htry. injection Htry as <-.
    unfold distinctIds. cbn.
    repeat (constructor; [cbn [In]; intuition discriminate|]). constructor. }
  eexists. split; [reflexivity|]. split; [exact Hresp|].
  apply (reachable_ids_distinct_if_response_distinct
           [FetchSettled (Response 200 (Some (JArr twoUsers)))]);
    [reflexivity|exact Hresp].
Defined.

Lemma refresh_replaces_collection_witness :
  step sameIdState PullToRefresh = Some (fetchContacts sameIdState) /\
  loading (fetchContacts sameIdState) = true /\
  exists s2,
    step (fetchContacts sameIdState) (FetchSettled notFound) = Some s2 /\
    loading s2 = false /\ contacts s2 = mockContacts.
Proof.
  split; [reflexivity|].
  destruct (refresh_replaces_collection sameIdState PullToRefresh
              (fetchContacts sameIdState) notFound (or_introl eq_refl) eq_refl)
    as (Hl1 & _ & s2 & Hs2 & Hl2 & _ & Hmock).
  split; [exact Hl1|].
  exists s2. split; [exact Hs2|]. split; [exact Hl2|].
  apply (Hmock (HttpError 404)). reflexivity.
Defined.

Lemma pagination_never_appends_witness :
  reachable settled /\
  step settled EndReached = None /\ step settled TimeoutElapsed = None /\
  loadMoreContacts settled = settled.
Proof.
  assert (Hr : reachable settled)
    by (exists [FetchSettled notFound]; reflexivity).
  split; [exact Hr|].
  destruct (proj1 (proj2 pagination_never_appends) settled Hr)
    as (He & Ht & Hn).
  split; [exact He|]. split; [exact Ht|].
  exact (proj2 (Hn eq_refl)).
Defined.

Lemma non_array_body_gives_mock_witness :
  ok 200 = true /\ (forall items, wrappedBody <> JArr items) /\
  contacts (fetchContacts_resume (Response 200 (Some wrappedBody)) mounted)
    = mockContacts.
Proof.
  assert (Hnot : forall items, wrappedBody <> JArr items)
    by (intros items Habs; discriminate Habs).
  split; [reflexivity|]. split; [exact Hnot|].
  exact (proj1 (proj2 (non_array_body_gives_mock 200 wrappedBody mounted
                         eq_refl Hnot))).
Defined.

Lemma one_bad_element_discards_response_witness :
  In noId (twoUsers ++ [noId]) /\ toContact noId = inl TypeError /\
  contacts (fetchContacts_resume
              (Response 200 (Some (JArr (twoUsers ++ [noId])))) mounted)
    = mockContacts.
Proof.
  assert (Hin : In noId (twoUsers ++ [noId]))
    by (cbn; right; right; left; reflexivity).
  split; [exact Hin|]. split; [reflexivity|].
  exact (proj2 (one_bad_element_discards_response 200 (twoUsers ++ [noId])
                  noId TypeError mounted Hin eq_refl)).
Defined.

Lemma toContact_succeeds_iff_witness :
  toContact nameless = inr namelessContact.
Proof.
  apply (proj2 (toContact_succeeds_iff nameless namelessContact)).
  do 2 eexists. split; [reflexivity|]. split; [reflexivity|].
  repeat split; reflexivity.
Defined.

Lemma fetchTry_succeeds_iff_witness :
  fetchTry (Response 200 (Some (JArr twoUsers))) = inr twoContacts /\
  exists status (items : list (@JsValue IntegerNumber)),
    Response 200 (Some (JArr twoUsers)) = Response status (Some (JArr items)) /\
    ok status = true /\
    Forall2 (fun (user : @JsValue IntegerNumber) (rec : @User IntegerNumber) =>
               toContact user = inr rec) items twoContacts.
Proof.
  split; [reflexivity|].
  apply (proj1 (fetchTry_succeeds_iff (Response 200 (Some (JArr twoUsers)))
                  twoContacts)).
  reflexivity.
Defined.

Lemma retry_offered_iff_empty_witness :
  ok 200 = true /\
  contacts (fetchContacts_resume (Response 200 (Some (JArr []))) refreshing) = [] /\
  offered (render (fetchContacts_resume (Response 200 (Some (JArr []))) refreshing))
    PressRetry = Some HFetchContacts.
Proof.
  split; [reflexivity|].
  pose proof (proj2 (retry_offered_iff_empty refreshing) 200 eq_refl) as Hw.
  cbv zeta in Hw. split; [exact (proj1 Hw)|exact (proj2 (proj2 Hw))].
Defined.

Lemma step_follows_render_witness :
  gesture (@PullToRefresh IntegerNumber) = true /\
  step settled PullToRefresh =
  match offered (render settled) PullToRefresh with
  | Some h => Some (invoke h settled)
  | None => None
  end.
Proof.
  split; [reflexivity|].
  apply (step_follows_render settled PullToRefresh). reflexivity.
Defined.

Lemma list_props_never_refreshing_witness :
  render settled = Container settledList /\
  refreshingProp settledList = false /\
  ListEmptyComponent settledList = Some HFetchContacts.
Proof.
  split; [reflexivity|].
  pose proof (list_props_never_refreshing settled settledList eq_refl) as Hw.
  split; [exact (proj1 Hw)|exact (proj1 (proj2 Hw))].
Defined.

Lemma reachable_list_footer_witness :
  reachable settled /\ render settled = Container settledList /\
  onEndReached settledList = None /\
  ListFooterComponent settledList <> LoadMoreIndicator.
Proof.
  assert (Hr : reachable settled)
    by (exists [FetchSettled notFound]; reflexivity).
  split; [exact Hr|]. split; [reflexivity|].
  pose proof (reachable_list_footer settled settledList Hr eq_refl) as Hw.
  split; [exact (proj1 Hw)|exact (proj1 (proj2 Hw))].
Defined.

Lemma one_request_at_a_time_witness :
  reachable refreshing /\ pendingFetches refreshing <= 1 /\
  (render refreshing = LoadingContainer <-> pendingFetches refreshing = 1).
Proof.
  assert (Hr : reachable refreshing)
    by (exists [FetchSettled notFound; PullToRefresh]; reflexivity).
  split; [exact Hr|]. exact (one_request_at_a_time refreshing Hr).
Defined.

Lemma press_alerts_name_witness :
  toContact nameless = inr namelessContact /\
  getProp nameless "name" = inr JUndefined /\
  itemOnPress (renderItem namelessContact) = inr "You clicked on undefined".
Proof.
  split; [reflexivity|]. split; [reflexivity|].
  apply (proj2 (proj2 (press_alerts_name nameless namelessContact eq_refl))).
  reflexivity.
Defined.

Lemma failure_alert_text_witness :
  ok 404 = false /\
  fetchContacts_alert hermes notFound
    = Some "Failed to load contacts: HTTP error! Status: 404".
Proof.
  split; [reflexivity|].
  exact (proj2 (proj2 (failure_alert_text hermes notFound)) 404 None
           eq_refl eq_refl).
Defined.

Lemma additionalContacts_ids_fresh_witness :
  map id (contacts (paginating mockContacts))
    = map nat_toString (seq 1 (List.length (contacts (paginating mockContacts)))) /\
  distinctIds (contacts (paginating mockContacts)
                 ++ additionalContacts
                      (List.length (contacts (paginating mockContacts))))%list.
Proof.
  split; [reflexivity|].
  exact (proj2 (additionalContacts_ids_fresh
                  (contacts (paginating mockContacts)) eq_refl)).
Defined.

Lemma pages_append_consecutive_ids_witness :
  List.length (contacts (paginating mockContacts)) < 30 /\
  List.length (contacts (paginating mockContacts)) + 5 * 4 < 35 /\
  exists s',
    run (paginating mockContacts) (pageEvents 4) = Some s' /\
    List.length (contacts s') = 30 /\ hasMoreData s' = false /\
    step s' EndReached = None.
Proof.
  assert (H30 : List.length (contacts (paginating mockContacts)) < 30)
    by (cbn; lia).
  assert (H35 : List.length (contacts (paginating mockContacts)) + 5 * 4 < 35)
    by (cbn; lia).
  split; [exact H30|]. split; [exact H35|].
  destruct (pages_append_consecutive_ids 4 (paginating mockContacts)
              eq_refl eq_refl eq_refl eq_refl H30 H35)
    as (s' & Hrun & _ & Hlen & Hmore & Hend).
  exists s'. split; [exact Hrun|]. split; [exact Hlen|].
  split; [exact Hmore|]. exact (proj1 (Hend Hmore)).
Defined.

Lemma single_pagination_kept_witness :
  singlePagination (paginating mockContacts) /\
  exists s',
    run (paginating mockContacts) [EndReached; EndReached; PullToRefresh]
      = Some s' /\
    List.length (pendingTimeouts s') <= 1.
Proof.
  assert (Hsp : singlePagination (paginating mockContacts))
    by (left; split; reflexivity).
  split; [exact Hsp|].
  eexists. split; [reflexivity|].
  exact (proj1 (proj2 (single_pagination_kept
                         [EndReached; EndReached; PullToRefresh]
                         (paginating mockContacts) _ Hsp eq_refl))).
Defined.

Lemma refresh_during_pagination_witness :
  loading (paginating mockContacts) = false /\
  hasMoreData (paginating mockContacts) = true /\
  loadingMore (paginating mockContacts) = false /\
  pendingTimeouts (paginating mockContacts) = [] /\
  exists s',
    run (paginating mockContacts)
      [EndReached; PullToRefresh;
       FetchSettled (Response 200 (Some (JArr twoUsers))); TimeoutElapsed]
      = Some s' /\
    map id (contacts s') = ["1"; "2"; "11"; "12"; "13"; "14"; "15"].
Proof.
  repeat (split; [reflexivity|]).
  destruct (proj2 (refresh_during_pagination (paginating mockContacts)
                     (Response 200 (Some (JArr twoUsers)))
                     eq_refl eq_refl eq_refl eq_refl))
    as (s' & Hrun & Hc & _).
  exists s'. split; [exact Hrun|]. rewrite Hc. reflexivity.
Defined.

Lemma empty_list_only_after_empty_answer_witness :
  exists s,
    run mounted [FetchSettled notFound; PullToRefresh;
                 FetchSettled (Response 204 (Some (JArr [])))] = Some s /\
    loading s = false /\ contacts s = [] /\
    exists status,
      ok status = true /\
      lastSettled None [FetchSettled notFound; PullToRefresh;
                        FetchSettled (Response 204 (Some (JArr [])))]
        = Some (Response status (Some (JArr []))).
Proof.
  eexists. split; [reflexivity|]. split; [reflexivity|]. split; [reflexivity|].
  eapply (empty_list_only_after_empty_answer
            [FetchSettled notFound; PullToRefresh;
             FetchSettled (Response 204 (Some (JArr [])))]);
    reflexivity.
Defined.


